(** * AWS Config event accessors and logger configuration propagation

    A shallow embedding of
    [aws_lambda_powertools/utilities/data_classes/aws_config_event.py]
    and of the logger configuration propagation routine exercised by
    [tests/functional/test_logger_utils.py].

    Python dictionaries keyed by strings are finite maps ([gmap string _]),
    sets of logger names are finite sets ([gset string]), exceptions are a
    sum type, and the calls that the accessors make to [json.loads] are
    recorded in an explicit trace so that re-parsing can be observed. *)

From stdpp Require Import gmap strings list fin_maps.
From Stdlib Require Import ZArith Ascii.

Set Warnings "-register-all,-clear-no-such-hyp".

Open Scope string_scope.
Open Scope list_scope.

(** ** JSON-compatible values

    What [json.loads] can return and what an event payload can hold:
    [None], booleans, numbers, strings, lists and string-keyed dicts. *)

Inductive value : Type :=
  | VNull
  | VBool (b : bool)
  | VNum (z : Z)
  | VStr (s : string)
  | VList (l : list value)
  | VDict (d : gmap string value).

(** ** Exceptions and results *)

Inductive exception : Type :=
  | KeyError (key : string)
  | JSONDecodeError
  | TypeError
  | AttributeError (attr : string).

Inductive result (A : Type) : Type :=
  | Ok (a : A)
  | Raise (e : exception).

Arguments Ok {A} a.
Arguments Raise {A} e.

Definition is_ok {A} (r : result A) : bool :=
  match r with Ok _ => true | Raise _ => false end.

(** ** DictWrapper *)

Module DictWrapper.

(** Modelled from the spec: the base class [DictWrapper]
    ([aws_lambda_powertools/utilities/data_classes/common.py]) is not part
    of the sources.  The spec describes it as an immutable view over a
    mapping from string keys to JSON-compatible values whose accessors look
    up fixed keys and fail with a missing-key error on an absent key. *)
Definition getitem (data : gmap string value) (key : string) : result value :=
  match data !! key with
  | Some v => Ok v
  | None => Raise (KeyError key)
  end.

(** Modelled from the spec: [dict(self)] on a wrapper yields the entire
    wrapped mapping. *)
Definition to_dict (data : gmap string value) : value := VDict data.

End DictWrapper.

(** ** The three invoking-event wrappers

    Each class wraps the decoded mapping; [event] is the property that the
    three classes share by name. *)

Inductive invoking_event_variant : Type :=
  | AWSConfigConfigurationChangeEvent (data : gmap string value)
  | AWSConfigOversizedConfigurationChangeEvent (data : gmap string value)
  | AWSConfigPeriodicInvokingEvent (data : gmap string value).

Definition wrapped (v : invoking_event_variant) : gmap string value :=
  match v with
  | AWSConfigConfigurationChangeEvent d
  | AWSConfigOversizedConfigurationChangeEvent d
  | AWSConfigPeriodicInvokingEvent d => d
  end.

Definition event (v : invoking_event_variant) : result value :=
  match v with
  | AWSConfigConfigurationChangeEvent d => DictWrapper.getitem d "configurationItem"
  | AWSConfigOversizedConfigurationChangeEvent d =>
      DictWrapper.getitem d "configurationItemSummary"
  | AWSConfigPeriodicInvokingEvent d => Ok (DictWrapper.to_dict d)
  end.

(** The tag of a wrapper, forgetting the wrapped mapping. *)
Inductive variant_tag : Type := ConfigurationChange | Oversized | Periodic.

Definition tag_of (v : invoking_event_variant) : variant_tag :=
  match v with
  | AWSConfigConfigurationChangeEvent _ => ConfigurationChange
  | AWSConfigOversizedConfigurationChangeEvent _ => Oversized
  | AWSConfigPeriodicInvokingEvent _ => Periodic
  end.

(** ** The state an accessor runs in

    [payload] is the mapping that the [AWSConfigEvent] wrapper holds;
    [decoded] lists, most recent first, the documents handed to the JSON
    decoder so far. *)

Record world : Type := World {
  payload : gmap string value;
  decoded : list string
}.

Definition M (A : Type) : Type := world → result A * world.

Definition ret {A} (a : A) : M A := λ w, (Ok a, w).

Definition raise {A} (e : exception) : M A := λ w, (Raise e, w).

Definition bind {A B} (m : M A) (k : A → M B) : M B :=
  λ w, match m w with
       | (Ok a, w') => k a w'
       | (Raise e, w') => (Raise e, w')
       end.

#[global] Instance M_ret : MRet M := @ret.
#[global] Instance M_bind : MBind M := λ A B k m, bind m k.

(** [self[key]] on the event wrapper. *)
Definition self_getitem (key : string) : M value :=
  λ w, (DictWrapper.getitem (payload w) key, w).

(** Run an accessor [n] times in a row, collecting the results. *)
Fixpoint repeat_call {A} (n : nat) (m : M A) (w : world) : list (result A) * world :=
  match n with
  | O => ([], w)
  | S n' => let '(r, w') := m w in
            let '(rs, w'') := repeat_call n' m w' in
            (r :: rs, w'')
  end.

(** ** AWSConfigEvent

    [json.loads] belongs to Python's standard library, so the accessors are
    parameterised by the decoder: [json_loads s = None] stands for
    [json.JSONDecodeError] on the document [s]. *)

Section AWSConfigEvent.

Variable json_loads : string → option value.

(** [json.loads(x)]: a [str] argument is handed to the decoder (and
    recorded in the trace); any other JSON-compatible value is rejected
    with [TypeError] before any decoding. *)
Definition loads (x : value) : M value :=
  match x with
  | VStr s => λ w,
      (match json_loads s with
       | Some v => Ok v
       | None => Raise JSONDecodeError
       end,
       {| payload := payload w; decoded := s :: decoded w |})
  | _ => raise TypeError
  end.

(** [d.keys()] on a dict. *)
Definition keys (d : gmap string value) : gset string := dom d.

(** The decoded document is tested with [.keys()], a method that only a
    dict has: every other JSON value raises [AttributeError] at the first
    test.  On a dict the two membership tests run in the order of the
    [if]/[elif]/[else] chain and the dict is handed to the wrapper. *)
Definition invoking_event : M invoking_event_variant :=
  raw ← self_getitem "invokingEvent";
  invoking_event ← loads raw;
  match invoking_event with
  | VDict d =>
      if decide ("configurationItem" ∈ keys d) then
        mret (AWSConfigConfigurationChangeEvent d)
      else if decide ("configurationItemSummary" ∈ keys d) then
        mret (AWSConfigOversizedConfigurationChangeEvent d)
      else
        mret (AWSConfigPeriodicInvokingEvent d)
  | _ => raise (AttributeError "keys")
  end.

Definition rule_parameters : M value :=
  raw ← self_getitem "ruleParameters";
  loads raw.

Definition execution_role_arn : M value := self_getitem "executionRoleArn".
Definition config_rule_name : M value := self_getitem "configRuleName".
Definition config_rule_id : M value := self_getitem "configRuleId".
Definition config_rule_arn : M value := self_getitem "configRuleArn".
Definition account_id : M value := self_getitem "accountId".
Definition version : M value := self_getitem "version".
Definition event_left_scope : M value := self_getitem "eventLeftScope".
Definition result_token : M value := self_getitem "resultToken".

(** The plain scalar accessors, each with the key it reads. *)
Definition scalar_accessors : list (M value * string) :=
  [ (execution_role_arn, "executionRoleArn");
    (config_rule_name, "configRuleName");
    (config_rule_id, "configRuleId");
    (config_rule_arn, "configRuleArn");
    (account_id, "accountId");
    (version, "version");
    (event_left_scope, "eventLeftScope");
    (result_token, "resultToken") ].

End AWSConfigEvent.

(** ** A concrete decoder

    A recursive-descent decoder for the fragment of JSON that has no
    fractions, no exponents and no [\u] escapes (nor the [NaN] and
    [Infinity] constants that [json.loads] also accepts).  It is used to run the
    accessors on concrete documents; the theorems about the accessors hold
    for every decoder.  As in [json.loads], a repeated key of an object keeps
    its last value, control characters inside a string are refused, and
    anything but whitespace after the top-level value is an error. *)

Module JsonFragment.

Definition dquote : ascii := ascii_of_nat 34.
Definition backslash : ascii := ascii_of_nat 92.

(** Documents are written with single quotes in this file; [doc] turns
    them into the double quotes of JSON. *)
Fixpoint doc (s : string) : string :=
  match s with
  | EmptyString => EmptyString
  | String c t => String (if Ascii.eqb c "'" then dquote else c) (doc t)
  end.

Definition is_ws (c : ascii) : bool :=
  let n := nat_of_ascii c in
  (n =? 32)%nat || (n =? 9)%nat || (n =? 10)%nat || (n =? 13)%nat.

Fixpoint skip_ws (s : list ascii) : list ascii :=
  match s with
  | c :: r => if is_ws c then skip_ws r else s
  | [] => []
  end.

Definition digit_of (c : ascii) : option Z :=
  let n := nat_of_ascii c in
  if (48 <=? n)%nat && (n <=? 57)%nat then Some (Z.of_nat (n - 48)) else None.

Fixpoint scan_digits (acc : Z) (s : list ascii) : Z * list ascii :=
  match s with
  | c :: r =>
      match digit_of c with
      | Some d => scan_digits (10 * acc + d)%Z r
      | None => (acc, s)
      end
  | [] => (acc, [])
  end.

(** An optional minus sign, then either a single zero or a non-zero digit
    followed by digits: a leading zero ends the number. *)
Definition scan_int (s : list ascii) : option (Z * list ascii) :=
  let '(negative, s1) :=
    match s with
    | c :: r => if Ascii.eqb c "-" then (true, r) else (false, s)
    | [] => (false, s)
    end in
  match s1 with
  | c :: r =>
      match digit_of c with
      | Some d =>
          let '(n, r') := if (d =? 0)%Z then (0%Z, r) else scan_digits d r in
          Some (if negative then (- n)%Z else n, r')
      | None => None
      end
  | [] => None
  end.

Definition unescape (c : ascii) : option ascii :=
  let n := nat_of_ascii c in
  if (n =? 34)%nat || (n =? 92)%nat || (n =? 47)%nat then Some c
  else if (n =? 98)%nat then Some (ascii_of_nat 8)
  else if (n =? 102)%nat then Some (ascii_of_nat 12)
  else if (n =? 110)%nat then Some (ascii_of_nat 10)
  else if (n =? 114)%nat then Some (ascii_of_nat 13)
  else if (n =? 116)%nat then Some (ascii_of_nat 9)
  else None.

(** The characters of a string literal after its opening quote. *)
Fixpoint scan_string (s : list ascii) : option (string * list ascii) :=
  match s with
  | [] => None
  | c :: r =>
      if Ascii.eqb c dquote then Some (EmptyString, r)
      else if Ascii.eqb c backslash then
        match r with
        | e :: r' =>
            match unescape e, scan_string r' with
            | Some c', Some (t, rest) => Some (String c' t, rest)
            | _, _ => None
            end
        | [] => None
        end
      else if (nat_of_ascii c <? 32)%nat then None
      else
        match scan_string r with
        | Some (t, rest) => Some (String c t, rest)
        | None => None
        end
  end.

Fixpoint strip_prefix (p s : list ascii) : option (list ascii) :=
  match p, s with
  | [], _ => Some s
  | a :: p', b :: s' => if Ascii.eqb a b then strip_prefix p' s' else None
  | _ :: _, [] => None
  end.

Definition starts_with (c : ascii) (s : list ascii) : option (list ascii) :=
  strip_prefix [c] s.

Fixpoint parse_value (fuel : nat) (s : list ascii) : option (value * list ascii) :=
  match fuel with
  | O => None
  | S fuel' =>
      let s := skip_ws s in
      match strip_prefix (String.list_ascii_of_string "null") s with
      | Some r => Some (VNull, r)
      | None =>
      match strip_prefix (String.list_ascii_of_string "true") s with
      | Some r => Some (VBool true, r)
      | None =>
      match strip_prefix (String.list_ascii_of_string "false") s with
      | Some r => Some (VBool false, r)
      | None =>
      match starts_with dquote s with
      | Some r =>
          match scan_string r with
          | Some (t, rest) => Some (VStr t, rest)
          | None => None
          end
      | None =>
      match starts_with "[" s with
      | Some r =>
          match starts_with "]" (skip_ws r) with
          | Some rest => Some (VList [], rest)
          | None =>
              match parse_elements fuel' r with
              | Some (l, rest) => Some (VList l, rest)
              | None => None
              end
          end
      | None =>
      match starts_with "{" s with
      | Some r =>
          match starts_with "}" (skip_ws r) with
          | Some rest => Some (VDict ∅, rest)
          | None =>
              match parse_members fuel' ∅ r with
              | Some (d, rest) => Some (VDict d, rest)
              | None => None
              end
          end
      | None =>
          match scan_int s with
          | Some (n, rest) => Some (VNum n, rest)
          | None => None
          end
      end end end end end end
  end
with parse_elements (fuel : nat) (s : list ascii) : option (list value * list ascii) :=
  match fuel with
  | O => None
  | S fuel' =>
      match parse_value fuel' s with
      | Some (v, r) =>
          let r := skip_ws r in
          match starts_with "," r with
          | Some r' =>
              match parse_elements fuel' r' with
              | Some (l, rest) => Some (v :: l, rest)
              | None => None
              end
          | None =>
              match starts_with "]" r with
              | Some rest => Some ([v], rest)
              | None => None
              end
          end
      | None => None
      end
  end
with parse_members (fuel : nat) (acc : gmap string value) (s : list ascii)
    : option (gmap string value * list ascii) :=
  match fuel with
  | O => None
  | S fuel' =>
      match starts_with dquote (skip_ws s) with
      | Some r =>
          match scan_string r with
          | Some (k, r1) =>
              match starts_with ":" (skip_ws r1) with
              | Some r2 =>
                  match parse_value fuel' r2 with
                  | Some (v, r3) =>
                      let acc' := <[k:=v]> acc in
                      let r3 := skip_ws r3 in
                      match starts_with "," r3 with
                      | Some r4 => parse_members fuel' acc' r4
                      | None =>
                          match starts_with "}" r3 with
                          | Some rest => Some (acc', rest)
                          | None => None
                          end
                      end
                  | None => None
                  end
              | None => None
              end
          | None => None
          end
      | None => None
      end
  end.

Definition json_loads (s : string) : option value :=
  let cs := String.list_ascii_of_string s in
  match parse_value (2 * length cs + 2) cs with
  | Some (v, rest) =>
      match skip_ws rest with
      | [] => Some v
      | _ :: _ => None
      end
  | None => None
  end.

End JsonFragment.

(** ** Logger configuration propagation

    [aws_lambda_powertools/logging/utils.py] is not part of the sources;
    only its functional tests are.  The definitions of this module follow
    the description of [copy_config_to_registered_loggers] in the spec. *)

Module LoggingUtils.

(** Modelled from the spec: a handler is a sink for formatted records with
    one formatter attached.  [sink] and [formatter] are references to the
    stream and formatter instances; a pre-existing handler may have no
    formatter. *)
Record handler : Type := Handler {
  sink : nat;
  formatter : option nat
}.

(** Modelled from the spec: a shallow copy of a handler is a handler that
    refers to the same instances as the original does. *)
Definition copy_handler (h : handler) : handler :=
  {| sink := sink h; formatter := formatter h |}.

(** Modelled from the spec: a registry entry has a mutable list of
    attached handlers, a mutable level and a mutable set of bound keys; its
    name is its key in the registry. *)
Record logger : Type := Logger {
  handlers : list handler;
  level : Z;
  bound_keys : gmap string string
}.

(** Modelled from the spec: the source is a structured logger already
    configured with exactly one handler and a formatter. *)
Record source_logger : Type := Source {
  name : string;
  registered_handler : handler;
  source_level : Z
}.

Section Propagation.

(** The internal/reserved logger names used by the library itself. *)
Variable reserved : gset string.

(** Modelled from the spec: candidate selection.  All registered loggers,
    restricted to [include] when it is given; then the names of
    [exclude] are removed, and the source's own name and the reserved
    names are removed unconditionally. *)
Definition candidates (reg : gmap string logger) (source : source_logger)
    (include exclude : option (gset string)) : gset string :=
  let registered := dom reg in
  let selected :=
    match include with
    | Some names => registered ∩ names
    | None => registered
    end in
  let selected :=
    match exclude with
    | Some names => selected ∖ names
    | None => selected
    end in
  selected ∖ ({[ name source ]} ∪ reserved).

(** Modelled from the spec: a candidate's handler list is replaced with a
    single shallow copy of the source's handler and its level is set to
    [log_level] if given, else to the source's level. *)
Definition configure_logger (source : source_logger) (log_level : option Z)
    (l : logger) : logger :=
  {| handlers := [copy_handler (registered_handler source)];
     level := match log_level with
              | Some lv => lv
              | None => source_level source
              end;
     bound_keys := bound_keys l |}.

(** Modelled from the spec: one pass over the candidates, mutating each
    registry entry in place; no value is returned. *)
Definition copy_config_to_registered_loggers (source : source_logger)
    (include exclude : option (gset string)) (log_level : option Z)
    (reg : gmap string logger) : gmap string logger :=
  foldr (λ n r, alter (configure_logger source log_level) n r) reg
        (elements (candidates reg source include exclude)).

End Propagation.

End LoggingUtils.

(** ** Auxiliary notions used in the statements *)

(** The world after the decoder has been handed the document [s]. *)
Definition logged (s : string) (w : world) : world :=
  {| payload := payload w; decoded := s :: decoded w |}.

(** The document an accessor decodes when it runs on payload [p]: the value
    at [key] when it is a string, nothing otherwise. *)
Definition document_at (key : string) (p : gmap string value) : list string :=
  match p !! key with
  | Some (VStr s) => [s]
  | _ => []
  end.

Definition is_str (v : value) : bool :=
  match v with VStr _ => true | _ => false end.

(** A mapping from strings to strings, the annotated return type of
    [rule_parameters]. *)
Definition is_str_dict (v : value) : bool :=
  match v with
  | VDict d => forallb (λ kv, is_str kv.2) (map_to_list d)
  | _ => false
  end.

(** The tag of the wrapper an accessor call returned, if it returned one. *)
Definition returned_tag (r : result invoking_event_variant) : option variant_tag :=
  match r with
  | Ok v => Some (tag_of v)
  | Raise _ => None
  end.

(** ** Sample payloads *)

Module Samples.

Import JsonFragment.

Definition event_with (invoking : string) : world :=
  {| payload :=
       <["invokingEvent" := VStr (doc invoking)]>
       (<["ruleParameters" := VStr (doc "{'desiredInstanceType': 't2.micro'}")]>
       (<["resultToken" := VStr "token"]>
       (<["eventLeftScope" := VBool false]>
       (<["executionRoleArn" := VStr "arn:aws:iam::123456789012:role/config-role"]>
       (<["configRuleArn" := VStr "arn:aws:config:us-east-1:123456789012:config-rule/r"]>
       (<["configRuleName" := VStr "MyRule"]>
       (<["configRuleId" := VStr "config-rule-i9y8j9"]>
       (<["accountId" := VStr "123456789012"]>
       {["version" := VStr "1.0"]}))))))));
     decoded := [] |}.

Definition change_doc : string :=
  "{'configurationItem': {'resourceId': 'i-0'}, 'configurationItemSummary': null, 'messageType': 'ConfigurationItemChangeNotification'}".

Definition oversized_doc : string :=
  "{'configurationItemSummary': {'resourceId': 'i-0'}, 'messageType': 'OversizedConfigurationItemChangeNotification'}".

Definition periodic_doc : string :=
  "{'awsAccountId': '123456789012', 'messageType': 'ScheduledNotification'}".

Definition null_item_doc : string := "{'configurationItem': null}".

(** What the three documents decode to. *)
Definition change_mapping : gmap string value :=
  <["configurationItem" := VDict {["resourceId" := VStr "i-0"]}]>
  (<["configurationItemSummary" := VNull]>
  {["messageType" := VStr "ConfigurationItemChangeNotification"]}).

Definition oversized_mapping : gmap string value :=
  <["configurationItemSummary" := VDict {["resourceId" := VStr "i-0"]}]>
  {["messageType" := VStr "OversizedConfigurationItemChangeNotification"]}.

Definition periodic_mapping : gmap string value :=
  <["awsAccountId" := VStr "123456789012"]>
  {["messageType" := VStr "ScheduledNotification"]}.

Definition list_doc : string := "[1, 2]".

Definition broken_doc : string := "{'configurationItem': ".

(** A payload whose [ruleParameters] document is a JSON list. *)
Definition list_parameters : world :=
  {| payload := {["ruleParameters" := VStr "[]"]}; decoded := [] |}.

(** A payload whose [ruleParameters] document maps a key to a number. *)
Definition number_parameters : world :=
  {| payload := {["ruleParameters" := VStr (doc "{'maxAge': 90}")]}; decoded := [] |}.

End Samples.

(** ** Sample registries, after the fixtures of the functional tests *)

Module LoggingSamples.

Import LoggingUtils.

(** The reserved names taken for the sample runs: the logger of the
    library's own package. *)
Definition package_loggers : gset string := {[ "aws_lambda_powertools" ]}.

(** The source's stream handler with its structured formatter. *)
Definition powertools_handler : handler := {| sink := 1; formatter := Some 7 |}.

(** A [NullHandler] attached to a logger beforehand. *)
Definition null_handler : handler := {| sink := 0; formatter := None |}.

Definition INFO : Z := 20.
Definition WARNING : Z := 30.
Definition CRITICAL : Z := 50.

Definition powertools_logger (lv : Z) : source_logger :=
  {| name := "service"; registered_handler := powertools_handler; source_level := lv |}.

(** A freshly created external logger: no handler, level unset. *)
Definition fresh : logger := {| handlers := []; level := 0; bound_keys := ∅ |}.

(** Two external loggers, the second with a handler already attached, next
    to the source's own entry and the package logger. *)
Definition registry : gmap string logger :=
  <["logger_1" := fresh]>
  (<["logger_2" := {| handlers := [null_handler]; level := 0; bound_keys := ∅ |}]>
  (<["service" := {| handlers := [powertools_handler]; level := CRITICAL;
                     bound_keys := {["service" := "service"]} |}]>
  {["aws_lambda_powertools" := fresh]})).

(** What a reconfigured sample logger looks like. *)
Definition configured (lv : Z) : logger :=
  {| handlers := [powertools_handler]; level := lv; bound_keys := ∅ |}.

End LoggingSamples.

(** ** The keys the accessors of [AWSConfigEvent] read *)

Definition accessor_keys : list string :=
  "invokingEvent" :: "ruleParameters" :: scalar_accessors.*2.

(** The payload with [key] set to [x]; the trace is left as it is. *)
Definition with_item (key : string) (x : value) (w : world) : world :=
  {| payload := <[key := x]> (payload w); decoded := decoded w |}.

(** What [event] yields on a wrapper that [invoking_event] built from the
    mapping [d]: the value at the first of the two keys that is present, or
    the whole mapping. *)
Definition first_present (d : gmap string value) : value :=
  match d !! "configurationItem" with
  | Some x => x
  | None =>
      match d !! "configurationItemSummary" with
      | Some x => x
      | None => VDict d
      end
  end.

(** ** Helpers of the functional tests

    [tests/functional/test_logger_utils.py] reads the records that the
    loggers wrote to a [StringIO]: the captured text is a string, split at
    newlines and decoded line by line.  [str.strip] and [json.loads] belong
    to Python, so the helpers are parameterised by both. *)

Module TestLoggerUtils.

Definition newline : ascii := ascii_of_nat 10.

(** [s.split(NL)] for the one-character separator NL (line feed): one more
    piece than there are separators, empty pieces included. *)
Fixpoint split_newline (s : string) : list string :=
  match s with
  | EmptyString => [EmptyString]
  | String c t =>
      if Ascii.eqb c newline then EmptyString :: split_newline t
      else
        match split_newline t with
        | l :: ls => String c l :: ls
        | [] => [String c EmptyString]
        end
  end.

(** The truth value of a [str]: false for the empty string only. *)
Definition truthy (s : string) : bool :=
  match s with
  | EmptyString => false
  | String _ _ => true
  end.

Section Capture.

Variable json_loads : string → option value.
Variable strip : string → string.

(** [json.loads(s)] on a [str]. *)
Definition loads_str (s : string) : result value :=
  match json_loads s with
  | Some v => Ok v
  | None => Raise JSONDecodeError
  end.

Definition capture_logging_output (stdout : string) : result value :=
  loads_str (strip stdout).

(** The list comprehension: lines are visited in order, falsy lines are
    skipped, and the first line that fails to decode ends the whole
    comprehension with its exception. *)
Fixpoint decode_lines (lines : list string) : result (list value) :=
  match lines with
  | [] => Ok []
  | line :: rest =>
      if truthy line then
        match loads_str (strip line) with
        | Ok v =>
            match decode_lines rest with
            | Ok vs => Ok (v :: vs)
            | Raise e => Raise e
            end
        | Raise e => Raise e
        end
      else decode_lines rest
  end.

Definition capture_multiple_logging_statements_output (stdout : string)
    : result (list value) :=
  decode_lines (split_newline stdout).

End Capture.

(** [string.ascii_letters + string.digits]. *)
Definition ascii_lowercase : string := "abcdefghijklmnopqrstuvwxyz".
Definition ascii_uppercase : string := "ABCDEFGHIJKLMNOPQRSTUVWXYZ".
Definition digits : string := "0123456789".
Definition chars : string :=
  String.append (String.append ascii_lowercase ascii_uppercase) digits.

(** [random.choice(seq)] is [seq[i]] for a random index [i] below
    [len(seq)]; [None] stands for the [IndexError] of an index out of
    range. *)
Definition choice (i : nat) (seq : string) : option ascii := String.get i seq.

(** [service_name]: fifteen draws joined into one string.  The source of
    randomness is the oracle [randbelow]: [randbelow k n] is the index that
    draw number [k] picks below [n]. *)
Definition service_name (randbelow : nat → nat → nat) : option string :=
  String.string_of_list_ascii <$>
    mapM (λ k, choice (randbelow k (String.length chars)) chars) (seq 0 15).

(** Letters and digits of ASCII. *)
Definition is_alnum (c : ascii) : bool :=
  let n := nat_of_ascii c in
  ((97 <=? n)%nat && (n <=? 122)%nat) || ((65 <=? n)%nat && (n <=? 90)%nat)
  || ((48 <=? n)%nat && (n <=? 57)%nat).

End TestLoggerUtils.

(** ** [str.strip] on ASCII text

    A concrete [strip] to run the test helpers with: it removes, at both
    ends, the ASCII characters that Python counts as whitespace. *)

Module AsciiText.

Definition is_space (c : ascii) : bool :=
  let n := nat_of_ascii c in
  ((9 <=? n)%nat && (n <=? 13)%nat) || ((28 <=? n)%nat && (n <=? 32)%nat).

Fixpoint lstrip (s : string) : string :=
  match s with
  | EmptyString => EmptyString
  | String c t => if is_space c then lstrip t else s
  end.

Fixpoint rstrip (s : string) : string :=
  match s with
  | EmptyString => EmptyString
  | String c t =>
      match rstrip t with
      | EmptyString => if is_space c then EmptyString else String c EmptyString
      | t' => String c t'
      end
  end.

Definition strip (s : string) : string := rstrip (lstrip s).

(** One record as the structured formatter writes it, line feed included. *)
Definition record_line : string :=
  JsonFragment.doc "{'level': 'INFO', 'message': 'test message2'}".

Definition with_newline (s : string) : string :=
  String.append s (String TestLoggerUtils.newline EmptyString).

End AsciiText.

(** * Properties of the event accessors *)

Example loads_object :
  JsonFragment.json_loads
    (JsonFragment.doc "{'configurationItem': {'resourceId': 'i-0'}, 'n': [1, -20, null]}")
  = Some (VDict (<["configurationItem" := VDict {["resourceId" := VStr "i-0"]}]>
                 {["n" := VList [VNum 1; VNum (-20); VNull]]})).
Proof. vm_compute. reflexivity. Qed.

Example loads_rejects_truncated :
  JsonFragment.json_loads (JsonFragment.doc Samples.broken_doc) = None.
Proof. vm_compute. reflexivity. Qed.

Ltac unfold_M :=
  unfold invoking_event, rule_parameters, self_getitem, loads, raise,
    mbind, mret, M_bind, M_ret, bind, ret, DictWrapper.getitem, keys in *.

Section AccessorFacts.

Variable json_loads : string → option value.

(** What one call of [invoking_event] does, case by case. *)
Lemma invoking_event_run w :
  invoking_event json_loads w =
    match payload w !! "invokingEvent" with
    | None => (Raise (KeyError "invokingEvent"), w)
    | Some (VStr s) =>
        match json_loads s with
        | None => (Raise JSONDecodeError, logged s w)
        | Some (VDict d) =>
            (Ok (if decide (is_Some (d !! "configurationItem")) then
                   AWSConfigConfigurationChangeEvent d
                 else if decide (is_Some (d !! "configurationItemSummary")) then
                   AWSConfigOversizedConfigurationChangeEvent d
                 else AWSConfigPeriodicInvokingEvent d),
             logged s w)
        | Some _ => (Raise (AttributeError "keys"), logged s w)
        end
    | Some _ => (Raise TypeError, w)
    end.
Proof.
  unfold_M. unfold logged.
  destruct (payload w !! "invokingEvent") as [[]|]; try reflexivity.
  destruct (json_loads s) as [[]|]; try reflexivity.
  repeat case_decide; try reflexivity;
    rewrite elem_of_dom in *; tauto.
Qed.

Lemma rule_parameters_run w :
  rule_parameters json_loads w =
    match payload w !! "ruleParameters" with
    | None => (Raise (KeyError "ruleParameters"), w)
    | Some (VStr s) =>
        (match json_loads s with
         | Some v => Ok v
         | None => Raise JSONDecodeError
         end, logged s w)
    | Some _ => (Raise TypeError, w)
    end.
Proof.
  unfold_M. unfold logged.
  destruct (payload w !! "ruleParameters") as [[]|]; reflexivity.
Qed.

(** C1.  When the [invokingEvent] string decodes to a mapping, the keys are
    tested in the order [configurationItem], [configurationItemSummary],
    fallback, and the mapping is wrapped in the first variant that matches:
    [configurationItem] present gives the configuration-change wrapper
    whatever else is present, [configurationItemSummary] without
    [configurationItem] gives the oversized wrapper, neither gives the
    periodic wrapper. *)
Theorem invoking_event_first_match w s d :
  payload w !! "invokingEvent" = Some (VStr s) →
  json_loads s = Some (VDict d) →
  (is_Some (d !! "configurationItem") →
     (invoking_event json_loads w).1 = Ok (AWSConfigConfigurationChangeEvent d)) ∧
  (d !! "configurationItem" = None →
   is_Some (d !! "configurationItemSummary") →
     (invoking_event json_loads w).1 = Ok (AWSConfigOversizedConfigurationChangeEvent d)) ∧
  (d !! "configurationItem" = None →
   d !! "configurationItemSummary" = None →
     (invoking_event json_loads w).1 = Ok (AWSConfigPeriodicInvokingEvent d)).
Proof.
  intros Hraw Hdec. rewrite invoking_event_run, Hraw, Hdec. simpl.
  split; [|split].
  - intros Hitem. by rewrite decide_True.
  - intros Hitem Hsum.
    rewrite decide_False, decide_True; [done..|].
    rewrite Hitem. by intros [? ?].
  - intros Hitem Hsum.
    rewrite !decide_False; [done|rewrite Hsum|rewrite Hitem]; by intros [? ?].
Qed.

(** C2.  [event] on the configuration-change wrapper returns what is
    stored at [configurationItem], on the oversized wrapper what is stored
    at [configurationItemSummary], and on the periodic wrapper the entire
    wrapped mapping; on the two non-periodic wrappers it raises [KeyError]
    when the expected key is absent. *)
Theorem event_returns_nested_mapping (d : gmap string value) :
  (∀ v, d !! "configurationItem" = Some v →
        event (AWSConfigConfigurationChangeEvent d) = Ok v) ∧
  (∀ v, d !! "configurationItemSummary" = Some v →
        event (AWSConfigOversizedConfigurationChangeEvent d) = Ok v) ∧
  event (AWSConfigPeriodicInvokingEvent d) = Ok (VDict d) ∧
  (d !! "configurationItem" = None →
     event (AWSConfigConfigurationChangeEvent d) = Raise (KeyError "configurationItem")) ∧
  (d !! "configurationItemSummary" = None →
     event (AWSConfigOversizedConfigurationChangeEvent d)
     = Raise (KeyError "configurationItemSummary")).
Proof.
  unfold event, DictWrapper.getitem, DictWrapper.to_dict.
  repeat split; try (intros v Hv; by rewrite Hv); intros Hv; by rewrite Hv.
Qed.

(** The first testable property of the spec: through [invoking_event], a
    decoded mapping that has [configurationItem] comes back as a wrapper
    whose [event] is the nested value. *)
Corollary invoking_event_then_event w s d v :
  payload w !! "invokingEvent" = Some (VStr s) →
  json_loads s = Some (VDict d) →
  d !! "configurationItem" = Some v →
  ∃ e, (invoking_event json_loads w).1 = Ok e ∧ event e = Ok v.
Proof.
  intros Hraw Hdec Hitem. rewrite invoking_event_run, Hraw, Hdec. simpl.
  rewrite decide_True by (by rewrite Hitem).
  eexists; split; [reflexivity|].
  unfold event, DictWrapper.getitem. by rewrite Hitem.
Qed.

Lemma scalar_accessor_run acc k w :
  (acc, k) ∈ scalar_accessors → acc w = (DictWrapper.getitem (payload w) k, w).
Proof.
  unfold scalar_accessors. rewrite !elem_of_cons, elem_of_nil.
  intros H. repeat (destruct H as [H|H]; [by simplify_eq|]). done.
Qed.

(** C6.  A plain scalar accessor raises [KeyError] on its own key exactly
    when that key is absent from the payload and otherwise returns the
    stored value as it is; [invoking_event] and [rule_parameters] raise
    [JSONDecodeError] exactly when the string at their key is not valid
    JSON. *)
Theorem accessor_errors w :
  (∀ acc k, (acc, k) ∈ scalar_accessors →
     (payload w !! k = None ↔ (acc w).1 = Raise (KeyError k)) ∧
     (payload w !! k = None ↔ is_ok (acc w).1 = false) ∧
     (∀ v, payload w !! k = Some v → (acc w).1 = Ok v)) ∧
  (∀ s, payload w !! "invokingEvent" = Some (VStr s) →
     ((invoking_event json_loads w).1 = Raise JSONDecodeError ↔ json_loads s = None)) ∧
  (∀ s, payload w !! "ruleParameters" = Some (VStr s) →
     ((rule_parameters json_loads w).1 = Raise JSONDecodeError ↔ json_loads s = None)).
Proof.
  split; [|split].
  - intros acc k Hin. rewrite (scalar_accessor_run _ _ _ Hin).
    unfold DictWrapper.getitem. simpl.
    destruct (payload w !! k) eqn:Hk; simpl; naive_solver.
  - intros s Hraw. rewrite invoking_event_run, Hraw.
    destruct (json_loads s) as [[]|]; simpl; naive_solver.
  - intros s Hraw. rewrite rule_parameters_run, Hraw.
    destruct (json_loads s); simpl; naive_solver.
Qed.

(** C7, amended.  When the [invokingEvent] string decodes to a mapping,
    the call fails nowhere and returns one wrapper of that mapping; the
    wrapper is the periodic one exactly when neither key is present.  A
    document that decodes to anything but a mapping makes the call raise
    [AttributeError]. *)
Theorem invoking_event_total_on_mappings w s x :
  payload w !! "invokingEvent" = Some (VStr s) →
  json_loads s = Some x →
  match x with
  | VDict d =>
      ∃ v, (invoking_event json_loads w).1 = Ok v ∧ wrapped v = d ∧
           (tag_of v = Periodic ↔
            d !! "configurationItem" = None ∧ d !! "configurationItemSummary" = None)
  | _ => (invoking_event json_loads w).1 = Raise (AttributeError "keys")
  end.
Proof.
  intros Hraw Hdec. rewrite invoking_event_run, Hraw, Hdec.
  destruct x; try reflexivity. simpl.
  eexists; split; [reflexivity|].
  destruct (decide (is_Some (d !! "configurationItem"))) as [Hi|Hi];
    [|destruct (decide (is_Some (d !! "configurationItemSummary"))) as [Hs|Hs]];
    simpl; (split; [done|]); split; try done.
  - intros [Hn _]. rewrite Hn in Hi. by destruct Hi.
  - intros [_ Hn]. rewrite Hn in Hs. by destruct Hs.
  - intros _. split; by apply eq_None_not_Some.
Qed.

(** C8, amended.  When the [ruleParameters] string is valid JSON,
    [rule_parameters] returns the decoded value as it is, so the result is
    a mapping from strings to strings exactly when the document encodes
    one. *)
Theorem rule_parameters_returns_decoded w s x :
  payload w !! "ruleParameters" = Some (VStr s) →
  json_loads s = Some x →
  (rule_parameters json_loads w).1 = Ok x ∧
  ∀ r, (rule_parameters json_loads w).1 = Ok r → is_str_dict r = is_str_dict x.
Proof.
  intros Hraw Hdec. rewrite rule_parameters_run, Hraw, Hdec. simpl.
  split; [done|]. by intros r [= ->].
Qed.

(** Repeating a document [n] times on either side of itself. *)
Lemma mjoin_replicate_comm {A} (n : nat) (l : list A) :
  mjoin (replicate n l) ++ l = l ++ mjoin (replicate n l).
Proof.
  induction n as [|n IH]; simpl.
  - by rewrite app_nil_r.
  - by rewrite <- app_assoc, IH.
Qed.

Lemma mjoin_replicate_nil {A} (n : nat) : mjoin (replicate n (@nil A)) = [].
Proof. induction n as [|n IH]; [done|]. simpl. exact IH. Qed.

(** An accessor that only extends the trace, by a document that the payload
    determines, and whose result the payload determines, behaves the same at
    every one of [n] consecutive calls. *)
Lemma repeat_call_pure {A} (m : M A) (doc : gmap string value → list string) :
  (∀ w, (m w).2 = {| payload := payload w; decoded := doc (payload w) ++ decoded w |}) →
  (∀ w w', payload w = payload w' → (m w).1 = (m w').1) →
  ∀ n w, repeat_call n m w =
           (replicate n (m w).1,
            {| payload := payload w;
               decoded := mjoin (replicate n (doc (payload w))) ++ decoded w |}).
Proof.
  intros Heff Hres n. induction n as [|n IH]; intros w; simpl.
  - by destruct w.
  - destruct (m w) as [r w'] eqn:Hm.
    assert (Hw' : w' = (m w).2) by (by rewrite Hm).
    rewrite Heff in Hw'. rewrite IH. subst w'. simpl.
    rewrite (Hres _ w) by done. rewrite Hm. simpl.
    by rewrite !app_assoc, mjoin_replicate_comm.
Qed.

Lemma invoking_event_effect w :
  (invoking_event json_loads w).2 =
    {| payload := payload w;
       decoded := document_at "invokingEvent" (payload w) ++ decoded w |}.
Proof.
  rewrite invoking_event_run. unfold document_at, logged.
  destruct (payload w !! "invokingEvent") as [[]|]; try by destruct w.
  by destruct (json_loads s) as [[]|].
Qed.

Lemma invoking_event_reads_payload w w' :
  payload w = payload w' →
  (invoking_event json_loads w).1 = (invoking_event json_loads w').1.
Proof.
  intros Hp. rewrite !invoking_event_run, Hp.
  destruct (payload w' !! "invokingEvent") as [[]|]; try done.
  by destruct (json_loads s) as [[]|].
Qed.

Lemma rule_parameters_effect w :
  (rule_parameters json_loads w).2 =
    {| payload := payload w;
       decoded := document_at "ruleParameters" (payload w) ++ decoded w |}.
Proof.
  rewrite rule_parameters_run. unfold document_at, logged.
  by destruct (payload w !! "ruleParameters") as [[]|]; try by destruct w.
Qed.

Lemma rule_parameters_reads_payload w w' :
  payload w = payload w' →
  (rule_parameters json_loads w).1 = (rule_parameters json_loads w').1.
Proof.
  intros Hp. rewrite !rule_parameters_run, Hp.
  by destruct (payload w' !! "ruleParameters") as [[]|].
Qed.

(** C9.  Every accessor is a deterministic function of the payload: [n]
    calls in a row return [n] equal results, leave the payload as it was,
    and a result never depends on the trace of earlier decodings.  Nothing is
    cached: each of the [n] calls of [invoking_event] or [rule_parameters]
    hands the embedded document to the decoder again; the scalar accessors
    leave the whole state untouched. *)
Theorem accessors_are_pure n w :
  repeat_call n (invoking_event json_loads) w =
    (replicate n (invoking_event json_loads w).1,
     {| payload := payload w;
        decoded := mjoin (replicate n (document_at "invokingEvent" (payload w)))
                   ++ decoded w |}) ∧
  repeat_call n (rule_parameters json_loads) w =
    (replicate n (rule_parameters json_loads w).1,
     {| payload := payload w;
        decoded := mjoin (replicate n (document_at "ruleParameters" (payload w)))
                   ++ decoded w |}) ∧
  (∀ acc k, (acc, k) ∈ scalar_accessors →
     repeat_call n acc w = (replicate n (acc w).1, w)) ∧
  (∀ w', payload w' = payload w →
     (invoking_event json_loads w').1 = (invoking_event json_loads w).1 ∧
     (rule_parameters json_loads w').1 = (rule_parameters json_loads w).1 ∧
     ∀ acc k, (acc, k) ∈ scalar_accessors → (acc w').1 = (acc w).1).
Proof.
  split; [|split; [|split]].
  - apply (repeat_call_pure _ (document_at "invokingEvent"));
      auto using invoking_event_effect, invoking_event_reads_payload.
  - apply (repeat_call_pure _ (document_at "ruleParameters"));
      auto using rule_parameters_effect, rule_parameters_reads_payload.
  - intros acc k Hin.
    rewrite (repeat_call_pure acc (λ _, [])).
    + rewrite mjoin_replicate_nil. by destruct w.
    + intros w0. rewrite (scalar_accessor_run _ _ _ Hin). by destruct w0.
    + intros w0 w1 Hp. rewrite !(scalar_accessor_run _ _ _ Hin). simpl. by rewrite Hp.
  - intros w' Hp. split; [|split].
    + by apply invoking_event_reads_payload.
    + by apply rule_parameters_reads_payload.
    + intros acc k Hin. rewrite !(scalar_accessor_run _ _ _ Hin). simpl. by rewrite Hp.
Qed.

Lemma returned_tag_run w s d :
  payload w !! "invokingEvent" = Some (VStr s) →
  json_loads s = Some (VDict d) →
  returned_tag (invoking_event json_loads w).1 =
    Some (if decide (is_Some (d !! "configurationItem")) then ConfigurationChange
          else if decide (is_Some (d !! "configurationItemSummary")) then Oversized
          else Periodic).
Proof.
  intros Hraw Hdec. rewrite invoking_event_run, Hraw, Hdec. simpl.
  by repeat case_decide.
Qed.

(** C10, amended.  Which wrapper is selected depends on which of the two
    keys are present and on nothing stored under them: whatever
    [configurationItem] maps to, [None] included, the configuration-change
    wrapper is selected; whatever [configurationItemSummary] maps to, the
    oversized wrapper is selected when [configurationItem] is absent; and
    two decoded mappings with the same keys present get the same wrapper. *)
Theorem variant_depends_on_key_presence_only w s d :
  payload w !! "invokingEvent" = Some (VStr s) →
  json_loads s = Some (VDict d) →
  (∀ v, d !! "configurationItem" = Some v →
     returned_tag (invoking_event json_loads w).1 = Some ConfigurationChange) ∧
  (∀ v, d !! "configurationItem" = None →
     d !! "configurationItemSummary" = Some v →
     returned_tag (invoking_event json_loads w).1 = Some Oversized) ∧
  (∀ w' s' d',
     payload w' !! "invokingEvent" = Some (VStr s') →
     json_loads s' = Some (VDict d') →
     (is_Some (d !! "configurationItem") ↔ is_Some (d' !! "configurationItem")) →
     (is_Some (d !! "configurationItemSummary")
      ↔ is_Some (d' !! "configurationItemSummary")) →
     returned_tag (invoking_event json_loads w').1
     = returned_tag (invoking_event json_loads w).1).
Proof.
  intros Hraw Hdec. rewrite (returned_tag_run _ _ _ Hraw Hdec).
  split; [|split].
  - intros v Hv. rewrite decide_True; [done|by rewrite Hv].
  - intros v Hi Hs. rewrite decide_False, decide_True; [done|by rewrite Hs|].
    rewrite Hi. by intros [? ?].
  - intros w' s' d' Hraw' Hdec' Hitem Hsum.
    rewrite (returned_tag_run _ _ _ Hraw' Hdec').
    repeat case_decide; tauto.
Qed.

End AccessorFacts.

(** ** The accessors on the sample payloads *)

Example change_doc_decodes :
  JsonFragment.json_loads (JsonFragment.doc Samples.change_doc)
  = Some (VDict Samples.change_mapping).
Proof. vm_compute. reflexivity. Qed.

Example oversized_doc_decodes :
  JsonFragment.json_loads (JsonFragment.doc Samples.oversized_doc)
  = Some (VDict Samples.oversized_mapping).
Proof. vm_compute. reflexivity. Qed.

Example periodic_doc_decodes :
  JsonFragment.json_loads (JsonFragment.doc Samples.periodic_doc)
  = Some (VDict Samples.periodic_mapping).
Proof. vm_compute. reflexivity. Qed.

(** The three documents select the three wrappers; the first one has both
    keys. *)
Lemma invoking_event_first_match_witness :
  (invoking_event JsonFragment.json_loads (Samples.event_with Samples.change_doc)).1
    = Ok (AWSConfigConfigurationChangeEvent Samples.change_mapping) ∧
  (invoking_event JsonFragment.json_loads (Samples.event_with Samples.oversized_doc)).1
    = Ok (AWSConfigOversizedConfigurationChangeEvent Samples.oversized_mapping) ∧
  (invoking_event JsonFragment.json_loads (Samples.event_with Samples.periodic_doc)).1
    = Ok (AWSConfigPeriodicInvokingEvent Samples.periodic_mapping).
Proof.
  split; [|split].
  - refine (proj1 (invoking_event_first_match JsonFragment.json_loads
                     (Samples.event_with Samples.change_doc)
                     (JsonFragment.doc Samples.change_doc) Samples.change_mapping _ _) _).
    + vm_compute. reflexivity.
    + vm_compute. reflexivity.
    + eexists. vm_compute. reflexivity.
  - refine (proj1 (proj2 (invoking_event_first_match JsonFragment.json_loads
                     (Samples.event_with Samples.oversized_doc)
                     (JsonFragment.doc Samples.oversized_doc) Samples.oversized_mapping _ _)) _ _).
    + vm_compute. reflexivity.
    + vm_compute. reflexivity.
    + vm_compute. reflexivity.
    + eexists. vm_compute. reflexivity.
  - refine (proj2 (proj2 (invoking_event_first_match JsonFragment.json_loads
                     (Samples.event_with Samples.periodic_doc)
                     (JsonFragment.doc Samples.periodic_doc) Samples.periodic_mapping _ _)) _ _).
    + vm_compute. reflexivity.
    + vm_compute. reflexivity.
    + vm_compute. reflexivity.
    + vm_compute. reflexivity.
Defined.

(** [event] on wrappers of the sample mappings: the nested value, the whole
    mapping, and a missing key. *)
Lemma event_returns_nested_mapping_witness :
  event (AWSConfigConfigurationChangeEvent Samples.change_mapping)
    = Ok (VDict {["resourceId" := VStr "i-0"]}) ∧
  event (AWSConfigOversizedConfigurationChangeEvent Samples.oversized_mapping)
    = Ok (VDict {["resourceId" := VStr "i-0"]}) ∧
  event (AWSConfigPeriodicInvokingEvent Samples.periodic_mapping)
    = Ok (VDict Samples.periodic_mapping) ∧
  event (AWSConfigConfigurationChangeEvent Samples.periodic_mapping)
    = Raise (KeyError "configurationItem") ∧
  event (AWSConfigOversizedConfigurationChangeEvent Samples.periodic_mapping)
    = Raise (KeyError "configurationItemSummary").
Proof.
  split; [|split; [|split; [|split]]].
  - apply (proj1 (event_returns_nested_mapping Samples.change_mapping)).
    vm_compute. reflexivity.
  - apply (proj1 (proj2 (event_returns_nested_mapping Samples.oversized_mapping))).
    vm_compute. reflexivity.
  - apply (proj1 (proj2 (proj2 (event_returns_nested_mapping Samples.periodic_mapping)))).
  - apply (proj1 (proj2 (proj2 (proj2
             (event_returns_nested_mapping Samples.periodic_mapping))))).
    vm_compute. reflexivity.
  - apply (proj2 (proj2 (proj2 (proj2
             (event_returns_nested_mapping Samples.periodic_mapping))))).
    vm_compute. reflexivity.
Defined.

(** On the sample payload every scalar key is present; on the empty payload
    [version] raises [KeyError]; a truncated document raises
    [JSONDecodeError]. *)
Lemma accessor_errors_witness :
  (version (Samples.event_with Samples.change_doc)).1 = Ok (VStr "1.0") ∧
  (event_left_scope (Samples.event_with Samples.change_doc)).1 = Ok (VBool false) ∧
  (version {| payload := ∅; decoded := [] |}).1 = Raise (KeyError "version") ∧
  (invoking_event JsonFragment.json_loads (Samples.event_with Samples.broken_doc)).1
    = Raise JSONDecodeError.
Proof.
  pose proof (accessor_errors JsonFragment.json_loads
                (Samples.event_with Samples.change_doc)) as (Hs & _ & _).
  pose proof (accessor_errors JsonFragment.json_loads
                {| payload := ∅; decoded := [] |}) as (He & _ & _).
  pose proof (accessor_errors JsonFragment.json_loads
                (Samples.event_with Samples.broken_doc)) as (_ & Hi & _).
  split; [|split; [|split]].
  - apply (Hs version "version"); [|vm_compute; reflexivity].
    unfold scalar_accessors. rewrite !elem_of_cons. tauto.
  - apply (Hs event_left_scope "eventLeftScope"); [|vm_compute; reflexivity].
    unfold scalar_accessors. rewrite !elem_of_cons. tauto.
  - apply (He version "version"); [|vm_compute; reflexivity].
    unfold scalar_accessors. rewrite !elem_of_cons. tauto.
  - apply (Hi (JsonFragment.doc Samples.broken_doc)); vm_compute; reflexivity.
Defined.

(** C7, as stated, fails: the document [[1, 2]] is valid JSON, and
    [invoking_event] raises [AttributeError] on it instead of returning a
    wrapper. *)
Lemma invoking_event_fails_on_json_list :
  payload (Samples.event_with Samples.list_doc) !! "invokingEvent" = Some (VStr "[1, 2]") ∧
  JsonFragment.json_loads "[1, 2]" = Some (VList [VNum 1; VNum 2]) ∧
  (invoking_event JsonFragment.json_loads (Samples.event_with Samples.list_doc)).1
    = Raise (AttributeError "keys") ∧
  is_ok (invoking_event JsonFragment.json_loads (Samples.event_with Samples.list_doc)).1
    = false.
Proof. vm_compute. done. Qed.

(** The periodic document decodes to a mapping and comes back in the
    periodic wrapper; the list document raises [AttributeError]. *)
Lemma invoking_event_total_on_mappings_witness :
  (∃ v, (invoking_event JsonFragment.json_loads
           (Samples.event_with Samples.periodic_doc)).1 = Ok v ∧
        wrapped v = Samples.periodic_mapping ∧
        (tag_of v = Periodic ↔
         Samples.periodic_mapping !! "configurationItem" = None ∧
         Samples.periodic_mapping !! "configurationItemSummary" = None)) ∧
  (invoking_event JsonFragment.json_loads (Samples.event_with Samples.list_doc)).1
    = Raise (AttributeError "keys").
Proof.
  split.
  - apply (invoking_event_total_on_mappings JsonFragment.json_loads
             (Samples.event_with Samples.periodic_doc)
             (JsonFragment.doc Samples.periodic_doc) (VDict Samples.periodic_mapping)).
    + vm_compute. reflexivity.
    + vm_compute. reflexivity.
  - apply (invoking_event_total_on_mappings JsonFragment.json_loads
             (Samples.event_with Samples.list_doc)
             (JsonFragment.doc Samples.list_doc) (VList [VNum 1; VNum 2])).
    + vm_compute. reflexivity.
    + vm_compute. reflexivity.
Defined.

(** C8, as stated, fails: both [ruleParameters] documents are valid JSON,
    yet the first result is a list and the second maps a key to a number. *)
Lemma rule_parameters_not_always_str_dict :
  JsonFragment.json_loads "[]" = Some (VList []) ∧
  (rule_parameters JsonFragment.json_loads Samples.list_parameters).1 = Ok (VList []) ∧
  is_str_dict (VList []) = false ∧
  (rule_parameters JsonFragment.json_loads Samples.number_parameters).1
    = Ok (VDict {["maxAge" := VNum 90]}) ∧
  is_str_dict (VDict {["maxAge" := VNum 90]}) = false.
Proof. vm_compute. done. Qed.

(** The sample [ruleParameters] document encodes a mapping from strings to
    strings and is returned as such. *)
Lemma rule_parameters_returns_decoded_witness :
  (rule_parameters JsonFragment.json_loads (Samples.event_with Samples.change_doc)).1
    = Ok (VDict {["desiredInstanceType" := VStr "t2.micro"]}) ∧
  is_str_dict (VDict {["desiredInstanceType" := VStr "t2.micro"]}) = true.
Proof.
  split; [|vm_compute; reflexivity].
  apply (rule_parameters_returns_decoded JsonFragment.json_loads
           (Samples.event_with Samples.change_doc)
           (JsonFragment.doc "{'desiredInstanceType': 't2.micro'}")).
  - vm_compute. reflexivity.
  - vm_compute. reflexivity.
Defined.

(** Three calls in a row on the sample payload: three equal results, the
    payload as before, and the document decoded three times. *)
Example invoking_event_thrice :
  let w := Samples.event_with Samples.periodic_doc in
  let '(rs, w') := repeat_call 3 (invoking_event JsonFragment.json_loads) w in
  rs = replicate 3 (Ok (AWSConfigPeriodicInvokingEvent Samples.periodic_mapping)) ∧
  payload w' = payload w ∧
  decoded w' = replicate 3 (JsonFragment.doc Samples.periodic_doc).
Proof. vm_compute. done. Qed.

(** C10, as stated, fails for [configurationItemSummary]: the sample
    document has that key (mapped to [null]) next to [configurationItem],
    and the configuration-change wrapper is selected, not the oversized
    one. *)
Lemma summary_present_but_not_oversized :
  JsonFragment.json_loads (JsonFragment.doc Samples.change_doc)
    = Some (VDict Samples.change_mapping) ∧
  Samples.change_mapping !! "configurationItemSummary" = Some VNull ∧
  returned_tag (invoking_event JsonFragment.json_loads
                  (Samples.event_with Samples.change_doc)).1
    = Some ConfigurationChange ∧
  ConfigurationChange ≠ Oversized.
Proof. vm_compute. done. Qed.

(** [configurationItem] mapped to [null] still selects the
    configuration-change wrapper. *)
Lemma variant_depends_on_key_presence_only_witness :
  returned_tag (invoking_event JsonFragment.json_loads
                  (Samples.event_with Samples.null_item_doc)).1
    = Some ConfigurationChange.
Proof.
  apply (proj1 (variant_depends_on_key_presence_only JsonFragment.json_loads
                  (Samples.event_with Samples.null_item_doc)
                  (JsonFragment.doc Samples.null_item_doc)
                  {["configurationItem" := VNull]}
                  ltac:(vm_compute; reflexivity) ltac:(vm_compute; reflexivity))
           VNull).
  vm_compute. reflexivity.
Defined.

(** * Properties of logger configuration propagation *)

Section PropagationFacts.

Import LoggingUtils.

Variable reserved : gset string.

(** Altering the entries named by a duplicate-free list, one after the
    other, alters exactly those entries, once each. *)
Lemma foldr_alter_lookup (f : logger → logger) (ns : list string)
    (reg : gmap string logger) (n : string) :
  NoDup ns →
  foldr (λ k r, alter f k r) reg ns !! n
  = if decide (n ∈ ns) then f <$> reg !! n else reg !! n.
Proof.
  induction 1 as [|a ns Ha Hns IH]; cbn [foldr].
  - rewrite decide_False; [done|]. apply not_elem_of_nil.
  - destruct (decide (a = n)) as [->|Hne].
    + rewrite lookup_alter_eq, IH.
      rewrite (decide_False (P := n ∈ ns)) by done.
      rewrite decide_True; [done|]. apply elem_of_cons. by left.
    + rewrite lookup_alter_ne by done. rewrite IH.
      destruct (decide (n ∈ ns)) as [Hin|Hin].
      * rewrite decide_True; [done|]. apply elem_of_cons. by right.
      * rewrite decide_False; [done|]. rewrite elem_of_cons. naive_solver.
Qed.

(** The registry after propagation, entry by entry. *)
Lemma copy_config_lookup source include exclude log_level
    (reg : gmap string logger) (n : string) :
  copy_config_to_registered_loggers reserved source include exclude log_level reg !! n
  = if decide (n ∈ candidates reserved reg source include exclude)
    then configure_logger source log_level <$> reg !! n
    else reg !! n.
Proof.
  unfold copy_config_to_registered_loggers.
  rewrite foldr_alter_lookup by apply NoDup_elements.
  destruct (decide (n ∈ elements (candidates reserved reg source include exclude)))
    as [Hin|Hin]; rewrite elem_of_elements in Hin.
  - by rewrite decide_True.
  - by rewrite decide_False.
Qed.

Lemma candidates_spec source include exclude (reg : gmap string logger) (n : string) :
  n ∈ candidates reserved reg source include exclude ↔
  is_Some (reg !! n) ∧
  (∀ names, include = Some names → n ∈ names) ∧
  (∀ names, exclude = Some names → n ∉ names) ∧
  n ≠ name source ∧ n ∉ reserved.
Proof.
  unfold candidates. rewrite <- elem_of_dom.
  destruct include as [inc|], exclude as [exc|]; set_solver.
Qed.

Lemma copy_config_dom source include exclude log_level (reg : gmap string logger) :
  dom (copy_config_to_registered_loggers reserved source include exclude log_level reg)
  = dom reg.
Proof.
  apply set_eq. intros n. rewrite !elem_of_dom, copy_config_lookup.
  case_decide; [|done]. by rewrite fmap_is_Some.
Qed.

Lemma candidates_after_copy source include exclude log_level (reg : gmap string logger) :
  candidates reserved
    (copy_config_to_registered_loggers reserved source include exclude log_level reg)
    source include exclude
  = candidates reserved reg source include exclude.
Proof. unfold candidates. by rewrite copy_config_dom. Qed.

(** The source's own registry entry is never touched, so the source that a
    second call reads is the source that the first call read. *)
Lemma copy_config_source_untouched source include exclude log_level
    (reg : gmap string logger) :
  copy_config_to_registered_loggers reserved source include exclude log_level reg
    !! name source
  = reg !! name source.
Proof.
  rewrite copy_config_lookup. rewrite decide_False; [done|].
  rewrite candidates_spec. naive_solver.
Qed.

(** C3.  After the call every selected logger has exactly one handler, the
    shallow copy of the source's handler, which refers to the source's
    formatter instance; none of the handlers it had before is kept beside
    it; and its level is [log_level] when given and the source's level
    otherwise. *)
Theorem targets_get_single_copied_handler source include exclude log_level
    (reg : gmap string logger) (n : string) :
  n ∈ candidates reserved reg source include exclude →
  ∃ before after,
    reg !! n = Some before ∧
    copy_config_to_registered_loggers reserved source include exclude log_level reg !! n
      = Some after ∧
    handlers after = [copy_handler (registered_handler source)] ∧
    length (handlers after) = 1 ∧
    (∀ h, h ∈ handlers after →
          formatter h = formatter (registered_handler source) ∧
          sink h = sink (registered_handler source)) ∧
    (∀ h, h ∈ handlers before → h ≠ copy_handler (registered_handler source) →
          h ∉ handlers after) ∧
    level after = default (source_level source) log_level ∧
    bound_keys after = bound_keys before.
Proof.
  intros Hin.
  assert (is_Some (reg !! n)) as [before Hbefore].
  { apply candidates_spec in Hin. tauto. }
  exists before, (configure_logger source log_level before).
  rewrite copy_config_lookup, decide_True, Hbefore by done.
  split; [done|]. split; [done|]. split; [done|]. split; [done|].
  split; [|split; [|split]].
  - intros h Hh. apply list_elem_of_singleton in Hh. by subst h.
  - intros h _ Hne Hh. apply list_elem_of_singleton in Hh. done.
  - by destruct log_level.
  - done.
Qed.

(** C4.  The selected loggers are the registered ones, restricted to
    [include] when it is given, minus the names of [exclude], minus the
    source's own name and the reserved names.  Selected loggers are
    reconfigured, all other entries are left as they were, and no entry is
    created or removed: a name of [include] that is not registered stays
    unregistered, and the call has no failure case. *)
Theorem candidate_selection source include exclude log_level
    (reg : gmap string logger) :
  let reg' :=
    copy_config_to_registered_loggers reserved source include exclude log_level reg in
  (∀ n, n ∈ candidates reserved reg source include exclude ↔
        is_Some (reg !! n) ∧
        (∀ names, include = Some names → n ∈ names) ∧
        (∀ names, exclude = Some names → n ∉ names) ∧
        n ≠ name source ∧ n ∉ reserved) ∧
  (∀ n, n ∈ candidates reserved reg source include exclude →
        reg' !! n = configure_logger source log_level <$> reg !! n) ∧
  (∀ n, n ∉ candidates reserved reg source include exclude → reg' !! n = reg !! n) ∧
  (∀ n names, include = Some names → exclude = Some names → reg' !! n = reg !! n) ∧
  (∀ n, reg !! n = None → reg' !! n = None) ∧
  dom reg' = dom reg.
Proof.
  intros reg'. subst reg'.
  split; [apply candidates_spec|].
  split; [intros n Hin; by rewrite copy_config_lookup, decide_True|].
  assert (Hout : ∀ n, n ∉ candidates reserved reg source include exclude →
            copy_config_to_registered_loggers reserved source include exclude
              log_level reg !! n = reg !! n).
  { intros n Hn. by rewrite copy_config_lookup, decide_False. }
  split; [exact Hout|].
  split; [|split].
  - intros n names -> ->. apply Hout. rewrite candidates_spec. naive_solver.
  - intros n Hn. rewrite Hout; [done|].
    rewrite candidates_spec, Hn. intros [[? ?] _]. done.
  - apply copy_config_dom.
Qed.

(** C5.  Calling the routine twice with the same arguments leaves the
    registry as one call leaves it, and after the second call every selected
    logger still has exactly one handler. *)
Theorem copy_config_idempotent source include exclude log_level
    (reg : gmap string logger) :
  let once :=
    copy_config_to_registered_loggers reserved source include exclude log_level reg in
  let twice :=
    copy_config_to_registered_loggers reserved source include exclude log_level once in
  twice = once ∧
  candidates reserved once source include exclude
    = candidates reserved reg source include exclude ∧
  (∀ n, n ∈ candidates reserved reg source include exclude →
        ∃ l, twice !! n = Some l ∧
             handlers l = [copy_handler (registered_handler source)] ∧
             length (handlers l) = 1).
Proof.
  intros once twice. subst once twice.
  assert (Hidem :
    copy_config_to_registered_loggers reserved source include exclude log_level
      (copy_config_to_registered_loggers reserved source include exclude log_level reg)
    = copy_config_to_registered_loggers reserved source include exclude log_level reg).
  { apply map_eq. intros n.
    rewrite (copy_config_lookup _ _ _ _
               (copy_config_to_registered_loggers reserved source include exclude
                  log_level reg)).
    rewrite candidates_after_copy.
    destruct (decide (n ∈ candidates reserved reg source include exclude)) as [Hin|Hin];
      [|done].
    rewrite copy_config_lookup, decide_True by done.
    by destruct (reg !! n). }
  split; [exact Hidem|].
  split; [apply candidates_after_copy|].
  intros n Hin. rewrite Hidem.
  assert (is_Some (reg !! n)) as [before Hbefore].
  { apply candidates_spec in Hin. tauto. }
  exists (configure_logger source log_level before).
  by rewrite copy_config_lookup, decide_True, Hbefore.
Qed.

End PropagationFacts.

(** ** The routine on the sample registry *)

(** [logger_2] is selected by [include]; it had a [NullHandler] and ends with
    the copy of the source's handler alone, at the overriding level. *)
Lemma targets_get_single_copied_handler_witness :
  ∃ before after,
    LoggingSamples.registry !! "logger_2" = Some before ∧
    LoggingUtils.copy_config_to_registered_loggers LoggingSamples.package_loggers
      (LoggingSamples.powertools_logger LoggingSamples.CRITICAL)
      (Some {[ "logger_2" ]}) None (Some LoggingSamples.WARNING)
      LoggingSamples.registry !! "logger_2" = Some after ∧
    LoggingUtils.handlers after
      = [LoggingUtils.copy_handler LoggingSamples.powertools_handler] ∧
    length (LoggingUtils.handlers after) = 1 ∧
    (∀ h, h ∈ LoggingUtils.handlers after →
          LoggingUtils.formatter h = Some 7 ∧ LoggingUtils.sink h = 1) ∧
    (∀ h, h ∈ LoggingUtils.handlers before →
          h ≠ LoggingUtils.copy_handler LoggingSamples.powertools_handler →
          h ∉ LoggingUtils.handlers after) ∧
    LoggingUtils.level after = LoggingSamples.WARNING ∧
    LoggingUtils.bound_keys after = LoggingUtils.bound_keys before.
Proof.
  apply (targets_get_single_copied_handler LoggingSamples.package_loggers
           (LoggingSamples.powertools_logger LoggingSamples.CRITICAL)
           (Some {[ "logger_2" ]}) None (Some LoggingSamples.WARNING)
           LoggingSamples.registry "logger_2").
  vm_compute. reflexivity.
Defined.

(** [test_copy_config_to_ext_loggers_clean_old_handlers]: without filters
    both external loggers are reconfigured, the old handler of [logger_2] is
    gone, and neither the source's entry nor the package logger changes. *)
Example copy_config_no_filters :
  LoggingUtils.copy_config_to_registered_loggers LoggingSamples.package_loggers
    (LoggingSamples.powertools_logger LoggingSamples.INFO) None None None
    LoggingSamples.registry
  = <["logger_1" := LoggingSamples.configured LoggingSamples.INFO]>
    (<["logger_2" := LoggingSamples.configured LoggingSamples.INFO]>
     LoggingSamples.registry).
Proof. vm_compute. reflexivity. Qed.

(** [test_copy_config_to_ext_loggers_include_exclude]: [logger_1] is in both
    sets and is left alone; only [logger_2] is reconfigured. *)
Example copy_config_include_exclude :
  LoggingUtils.copy_config_to_registered_loggers LoggingSamples.package_loggers
    (LoggingSamples.powertools_logger LoggingSamples.INFO)
    (Some {[ "logger_1"; "logger_2" ]}) (Some {[ "logger_1" ]}) None
    LoggingSamples.registry
  = <["logger_2" := LoggingSamples.configured LoggingSamples.INFO]>
    LoggingSamples.registry.
Proof. vm_compute. reflexivity. Qed.

(** [test_copy_config_to_ext_loggers_wrong_include]: an unknown name selects
    nothing and creates nothing. *)
Example copy_config_wrong_include :
  LoggingUtils.copy_config_to_registered_loggers LoggingSamples.package_loggers
    (LoggingSamples.powertools_logger LoggingSamples.INFO)
    (Some {[ "non-existing-logger" ]}) None None LoggingSamples.registry
  = LoggingSamples.registry.
Proof. vm_compute. reflexivity. Qed.

(** [test_copy_config_to_ext_loggers_custom_log_level]: the override wins
    over the source's level. *)
Example copy_config_custom_log_level :
  LoggingUtils.level <$>
    (LoggingUtils.copy_config_to_registered_loggers LoggingSamples.package_loggers
       (LoggingSamples.powertools_logger LoggingSamples.CRITICAL)
       (Some {[ "logger_1" ]}) None (Some LoggingSamples.WARNING)
       LoggingSamples.registry !! "logger_1")
  = Some LoggingSamples.WARNING.
Proof. vm_compute. reflexivity. Qed.

(** Two calls in a row on the sample registry. *)
Example copy_config_twice :
  let run :=
    LoggingUtils.copy_config_to_registered_loggers LoggingSamples.package_loggers
      (LoggingSamples.powertools_logger LoggingSamples.INFO) None None None in
  run (run LoggingSamples.registry) = run LoggingSamples.registry ∧
  (length ∘ LoggingUtils.handlers) <$> (run (run LoggingSamples.registry) !! "logger_2")
  = Some 1.
Proof. vm_compute. done. Qed.

(** * Further properties of the event accessors *)

Ltac decompose_ex H :=
  repeat match type of H with
         | ∃ _, _ => let x := fresh in destruct H as [x H]
         | _ ∧ _ => let H1 := fresh in destruct H as [H1 H]
         end.

Section AccessorCoverage.

Variable json_loads : string → option value.


(** X2.  [rule_parameters] returns exactly the values the decoder produces
    for a string stored at its key, whatever their shape; it raises
    [KeyError] exactly when the key is absent, [TypeError] exactly when the
    stored value is not a string, and, unlike [invoking_event], never an
    [AttributeError]. *)
Theorem rule_parameters_outcomes w :
  (∀ x, (rule_parameters json_loads w).1 = Ok x ↔
        ∃ s, payload w !! "ruleParameters" = Some (VStr s) ∧ json_loads s = Some x) ∧
  ((rule_parameters json_loads w).1 = Raise (KeyError "ruleParameters") ↔
   payload w !! "ruleParameters" = None) ∧
  ((rule_parameters json_loads w).1 = Raise TypeError ↔
   ∃ x, payload w !! "ruleParameters" = Some x ∧ is_str x = false) ∧
  (∀ attr, (rule_parameters json_loads w).1 ≠ Raise (AttributeError attr)).
Proof.
  rewrite rule_parameters_run.
  destruct (payload w !! "ruleParameters") as [x|] eqn:Hraw; [destruct x|];
    repeat match goal with
           | |- context [json_loads ?s] =>
               let Hdec := fresh "Hdec" in destruct (json_loads s) eqn:Hdec
           end;
    simpl; (split; [|split; [|split]]);
    try (intros attr [=]);
    try (intros y; split; [intros [=]|intros Hx; decompose_ex Hx; by simplify_eq]);
    try (split; [intros [=]|intros Hx; decompose_ex Hx; by simplify_eq]);
    try (split; [intros _|done]);
    try (by eexists; split; [reflexivity|]).
  - subst. by eexists.
  - done.
Qed.

(** X3.  Whatever wrapper [invoking_event] returns, [event] on it succeeds:
    the configuration-change and oversized wrappers are only built around a
    mapping that has their key.  The value is the one stored at
    [configurationItem] if that key is present, else the one stored at
    [configurationItemSummary] if that key is present, else the whole decoded
    mapping. *)
Theorem event_of_invoking_event w v :
  (invoking_event json_loads w).1 = Ok v →
  event v = Ok (first_present (wrapped v)) ∧
  ∃ s, payload w !! "invokingEvent" = Some (VStr s) ∧
       json_loads s = Some (VDict (wrapped v)).
Proof.
  rewrite invoking_event_run.
  destruct (payload w !! "invokingEvent") as [[| | | s | |]|]; try done.
  destruct (json_loads s) as [[| | | | | d]|] eqn:Hdec; try done.
  simpl. intros [= <-].
  unfold first_present, event, DictWrapper.getitem, DictWrapper.to_dict.
  destruct (decide (is_Some (d !! "configurationItem"))) as [[x Hx]|Hi];
    [|destruct (decide (is_Some (d !! "configurationItemSummary"))) as [[x Hx]|Hs]];
    simpl.
  - rewrite Hx. eauto.
  - rewrite <- eq_None_not_Some in Hi. rewrite Hi, Hx. eauto.
  - rewrite <- eq_None_not_Some in Hi, Hs. rewrite Hi, Hs. eauto.
Qed.

Lemma accessor_keys_NoDup : NoDup accessor_keys.
Proof. apply (bool_decide_unpack _). vm_compute. exact I. Qed.

(** X4.  The ten accessors read ten different keys, and each reads its own
    key only: setting any key of the payload changes the result of no
    accessor that reads another key, and a scalar accessor returns what was
    just stored at its key. *)
Theorem accessors_read_their_own_key w k x :
  NoDup accessor_keys ∧
  (k ≠ "invokingEvent" →
   (invoking_event json_loads (with_item k x w)).1 = (invoking_event json_loads w).1) ∧
  (k ≠ "ruleParameters" →
   (rule_parameters json_loads (with_item k x w)).1 = (rule_parameters json_loads w).1) ∧
  (∀ acc k0, (acc, k0) ∈ scalar_accessors →
     (k0 ≠ k → (acc (with_item k x w)).1 = (acc w).1) ∧
     (k0 = k → (acc (with_item k x w)).1 = Ok x)).
Proof.
  split; [apply accessor_keys_NoDup|]. split; [|split].
  - intros Hk. rewrite !invoking_event_run. unfold with_item. simpl.
    rewrite lookup_insert_ne by done.
    destruct (payload w !! "invokingEvent") as [[]|]; try done.
    by destruct (json_loads s) as [[]|].
  - intros Hk. rewrite !rule_parameters_run. unfold with_item. simpl.
    rewrite lookup_insert_ne by done.
    by destruct (payload w !! "ruleParameters") as [[]|].
  - intros acc k0 Hin. rewrite !(scalar_accessor_run _ _ _ Hin).
    unfold with_item, DictWrapper.getitem. simpl. split.
    + intros Hk. by rewrite lookup_insert_ne.
    + intros ->. by rewrite lookup_insert_eq.
Qed.

End AccessorCoverage.

(** The oversized sample document comes back in a wrapper whose [event] is
    the nested summary. *)
Lemma event_of_invoking_event_witness :
  event (AWSConfigOversizedConfigurationChangeEvent Samples.oversized_mapping)
    = Ok (first_present
            (wrapped (AWSConfigOversizedConfigurationChangeEvent
                        Samples.oversized_mapping))) ∧
  ∃ s, payload (Samples.event_with Samples.oversized_doc) !! "invokingEvent"
         = Some (VStr s) ∧
       JsonFragment.json_loads s
         = Some (VDict (wrapped (AWSConfigOversizedConfigurationChangeEvent
                                   Samples.oversized_mapping))).
Proof.
  apply (event_of_invoking_event JsonFragment.json_loads
           (Samples.event_with Samples.oversized_doc)
           (AWSConfigOversizedConfigurationChangeEvent Samples.oversized_mapping)).
  vm_compute. reflexivity.
Defined.

(** * Properties of the helpers of the functional tests *)

Section CaptureFacts.

Import TestLoggerUtils.

Variable json_loads : string → option value.
Variable strip : string → string.

Lemma split_newline_not_nil (s : string) : split_newline s ≠ [].
Proof.
  destruct s as [|c t]; simpl; [done|].
  destruct (Ascii.eqb c newline); [done|].
  by destruct (split_newline t).
Qed.

(** Splitting at a line feed that separates two texts. *)
Lemma split_newline_app (a b : string) :
  split_newline (String.append a (String newline b))
  = split_newline a ++ split_newline b.
Proof.
  induction a as [|c a IH]; simpl.
  - reflexivity.
  - destruct (Ascii.eqb c newline); rewrite IH; [done|].
    pose proof (split_newline_not_nil a) as Hne.
    by destruct (split_newline a).
Qed.

(** A text without line feed is one line. *)
Lemma split_newline_one_line (s : string) :
  newline ∉ String.list_ascii_of_string s → split_newline s = [s].
Proof.
  induction s as [|c s IH]; simpl; [done|].
  rewrite not_elem_of_cons. intros [Hc Hs].
  destruct (Ascii.eqb c newline) eqn:Heq.
  - apply Ascii.eqb_eq in Heq. congruence.
  - by rewrite IH.
Qed.

(** Every line is empty exactly when the text consists of line feeds. *)
Lemma split_newline_all_empty (s : string) :
  Forall (λ l, l = EmptyString) (split_newline s) ↔
  Forall (λ c, c = newline) (String.list_ascii_of_string s).
Proof.
  induction s as [|c s IH]; simpl.
  - split; [constructor|repeat constructor].
  - destruct (Ascii.eqb c newline) eqn:Heq.
    + apply Ascii.eqb_eq in Heq. subst c.
      rewrite !Forall_cons, IH. naive_solver.
    + apply Ascii.eqb_neq in Heq.
      pose proof (split_newline_not_nil s) as Hne.
      destruct (split_newline s) as [|l ls]; [done|].
      rewrite !Forall_cons. naive_solver.
Qed.

Lemma decode_lines_app (l1 l2 : list string) :
  decode_lines json_loads strip (l1 ++ l2) =
    match decode_lines json_loads strip l1 with
    | Ok v1 =>
        match decode_lines json_loads strip l2 with
        | Ok v2 => Ok (v1 ++ v2)
        | Raise e => Raise e
        end
    | Raise e => Raise e
    end.
Proof.
  induction l1 as [|l l1 IH]; simpl.
  - by destruct (decode_lines json_loads strip l2).
  - destruct (truthy l); [|done].
    destruct (loads_str json_loads (strip l)); [|done].
    rewrite IH.
    destruct (decode_lines json_loads strip l1); [|done].
    by destruct (decode_lines json_loads strip l2).
Qed.

Lemma decode_lines_ok (lines : list string) (vs : list value) :
  decode_lines json_loads strip lines = Ok vs ↔
  Forall2 (λ line v, json_loads (strip line) = Some v)
          (filter (λ l, truthy l) lines) vs.
Proof.
  revert vs. induction lines as [|l lines IH]; intros vs; simpl.
  - split; [intros [= <-]; constructor|by inversion 1].
  - destruct (truthy l) eqn:Ht.
    + rewrite filter_cons_True by (by rewrite Ht).
      unfold loads_str. destruct (json_loads (strip l)) as [v|] eqn:Hv.
      * destruct (decode_lines json_loads strip lines) as [vs'|e].
        -- split.
           ++ intros [= <-]. constructor; [done|]. by apply IH.
           ++ inversion 1 as [|? ? ? ? Hhd Htl]; subst.
              apply IH in Htl. by simplify_eq.
        -- split; [done|].
           inversion 1 as [|? ? ? ? Hhd Htl]; subst. by apply IH in Htl.
      * split; [done|]. inversion 1; simplify_eq.
    + rewrite filter_cons_False by (rewrite Ht; intros []). apply IH.
Qed.

Lemma decode_lines_raise (lines : list string) (e : exception) :
  decode_lines json_loads strip lines = Raise e ↔
  e = JSONDecodeError ∧
  ∃ line, line ∈ lines ∧ line ≠ EmptyString ∧ json_loads (strip line) = None.
Proof.
  revert e. induction lines as [|l lines IH]; intros e; simpl.
  - split; [done|]. intros (_ & line & Hin & _). by apply elem_of_nil in Hin.
  - setoid_rewrite elem_of_cons.
    destruct l as [|c t]; simpl.
    + rewrite IH. naive_solver.
    + unfold loads_str. destruct (json_loads (strip (String c t))) as [v|] eqn:Hv.
      * assert (Hrest :
          match decode_lines json_loads strip lines with
          | Ok vs => Ok (v :: vs)
          | Raise e0 => Raise e0
          end = Raise e ↔ decode_lines json_loads strip lines = Raise e).
        { destruct (decode_lines json_loads strip lines); naive_solver. }
        rewrite Hrest, IH. naive_solver.
      * split.
        -- intros [= <-]. split; [done|]. exists (String c t). naive_solver.
        -- by intros [-> _].
Qed.

Lemma decode_lines_no_records (lines : list string) :
  decode_lines json_loads strip lines = Ok [] ↔
  Forall (λ l, l = EmptyString) lines.
Proof.
  induction lines as [|l lines IH]; simpl.
  - split; [constructor|done].
  - rewrite Forall_cons. destruct l as [|c t]; simpl.
    + rewrite IH. naive_solver.
    + split; [|by intros [? _]].
      destruct (loads_str json_loads (strip (String c t))); [|done].
      by destruct (decode_lines json_loads strip lines).
Qed.

(** X5.  [capture_multiple_logging_statements_output] returns one record
    per non-empty line of the captured text, in order, each the decoding of
    the stripped line; it raises, with [JSONDecodeError], exactly when some
    non-empty line does not decode once stripped.  A line made of blanks is
    not skipped: it is non-empty, so it is stripped and handed to the
    decoder. *)
Theorem capture_multiple_records (stdout : string) :
  (∀ vs, capture_multiple_logging_statements_output json_loads strip stdout = Ok vs ↔
         Forall2 (λ line v, json_loads (strip line) = Some v)
                 (filter (λ l, truthy l) (split_newline stdout)) vs) ∧
  (∀ e, capture_multiple_logging_statements_output json_loads strip stdout = Raise e ↔
        e = JSONDecodeError ∧
        ∃ line, line ∈ split_newline stdout ∧ line ≠ EmptyString ∧
                json_loads (strip line) = None) ∧
  (∀ vs, capture_multiple_logging_statements_output json_loads strip stdout = Ok vs →
         length vs = length (filter (λ l, truthy l) (split_newline stdout))).
Proof.
  unfold capture_multiple_logging_statements_output.
  split; [|split].
  - intros vs. apply decode_lines_ok.
  - intros e. apply decode_lines_raise.
  - intros vs Hvs. apply decode_lines_ok in Hvs.
    symmetry. by eapply Forall2_length.
Qed.

(** X6.  Capturing two texts written one after the other, with a line feed
    between them, gives the records of the first followed by the records of
    the second; a failure in the first text wins over one in the second. *)
Theorem capture_multiple_concat (a b : string) :
  capture_multiple_logging_statements_output json_loads strip
    (String.append a (String newline b))
  = match capture_multiple_logging_statements_output json_loads strip a with
    | Ok va =>
        match capture_multiple_logging_statements_output json_loads strip b with
        | Ok vb => Ok (va ++ vb)
        | Raise e => Raise e
        end
    | Raise e => Raise e
    end.
Proof.
  unfold capture_multiple_logging_statements_output.
  by rewrite split_newline_app, decode_lines_app.
Qed.

(** X7.  [capture_multiple_logging_statements_output] returns the empty
    list exactly when the captured text consists of line feeds only (the
    empty text included): it never fails on an empty capture, and any other
    character yields a record or an error. *)
Theorem capture_multiple_no_records (stdout : string) :
  capture_multiple_logging_statements_output json_loads strip stdout = Ok [] ↔
  Forall (λ c, c = newline) (String.list_ascii_of_string stdout).
Proof.
  unfold capture_multiple_logging_statements_output.
  by rewrite decode_lines_no_records, split_newline_all_empty.
Qed.

(** X8.  On a capture that holds one line and its line feed, the two
    helpers agree: [capture_multiple_logging_statements_output] returns the
    one-element list of what [capture_logging_output] returns, and fails when
    it fails.  [strip] is assumed to drop the final line feed, as [str.strip]
    does. *)
Theorem capture_single_record (line : string) :
  line ≠ EmptyString →
  newline ∉ String.list_ascii_of_string line →
  strip (String.append line (String newline EmptyString)) = strip line →
  capture_multiple_logging_statements_output json_loads strip
    (String.append line (String newline EmptyString))
  = match capture_logging_output json_loads strip
            (String.append line (String newline EmptyString)) with
    | Ok v => Ok [v]
    | Raise e => Raise e
    end.
Proof.
  intros Hne Hnl Hstrip.
  unfold capture_multiple_logging_statements_output, capture_logging_output.
  rewrite split_newline_app, (split_newline_one_line line Hnl), Hstrip. simpl.
  destruct line as [|c t]; [done|]. simpl.
  by destruct (loads_str json_loads (strip (String c t))).
Qed.

End CaptureFacts.

(** One record and its line feed, read back by both helpers. *)
Lemma capture_single_record_witness :
  TestLoggerUtils.capture_multiple_logging_statements_output
    JsonFragment.json_loads AsciiText.strip
    (String.append AsciiText.record_line
                   (String TestLoggerUtils.newline EmptyString))
  = match TestLoggerUtils.capture_logging_output
            JsonFragment.json_loads AsciiText.strip
            (String.append AsciiText.record_line
                           (String TestLoggerUtils.newline EmptyString)) with
    | Ok v => Ok [v]
    | Raise e => Raise e
    end.
Proof.
  apply (capture_single_record JsonFragment.json_loads AsciiText.strip
           AsciiText.record_line).
  - vm_compute. discriminate.
  - apply (bool_decide_unpack _). vm_compute. exact I.
  - vm_compute. reflexivity.
Defined.

Example capture_two_records :
  TestLoggerUtils.capture_multiple_logging_statements_output
    JsonFragment.json_loads AsciiText.strip
    (String.append (AsciiText.with_newline AsciiText.record_line)
                   (AsciiText.with_newline "  7 "))
  = Ok [VDict (<["level" := VStr "INFO"]> {["message" := VStr "test message2"]});
        VNum 7].
Proof. vm_compute. reflexivity. Qed.

(** A line of blanks is stripped to the empty text, which is no JSON
    document. *)
Example capture_blank_line_fails :
  TestLoggerUtils.capture_multiple_logging_statements_output
    JsonFragment.json_loads AsciiText.strip
    (String.append (AsciiText.with_newline AsciiText.record_line)
                   (AsciiText.with_newline "   "))
  = Raise JSONDecodeError.
Proof. vm_compute. reflexivity. Qed.

Section ServiceNameFacts.

Import TestLoggerUtils.

Lemma chars_alnum :
  Forall (λ c, is_alnum c = true) (String.list_ascii_of_string chars).
Proof. apply (bool_decide_unpack _). vm_compute. exact I. Qed.

Lemma get_elem_of (s : string) (i : nat) (c : ascii) :
  String.get i s = Some c → c ∈ String.list_ascii_of_string s.
Proof.
  revert i. induction s as [|a s IH]; intros i; simpl; [done|].
  destruct i as [|i].
  - intros [= ->]. apply elem_of_cons. by left.
  - intros Hget. apply elem_of_cons. right. by eapply IH.
Qed.

Lemma get_in_range (s : string) (i : nat) :
  i < String.length s → is_Some (String.get i s).
Proof.
  revert i. induction s as [|a s IH]; intros i; simpl; [lia|].
  destruct i as [|i]; [by eexists|]. intros Hi. apply IH. lia.
Qed.

Lemma length_string_of_list_ascii (l : list ascii) :
  String.length (String.string_of_list_ascii l) = length l.
Proof. induction l as [|a l IH]; simpl; [done|]. by rewrite IH. Qed.

(** X9.  Whatever indices the fifteen draws pick below the size of the
    alphabet, [service_name] returns a name of exactly fifteen characters,
    all of them ASCII letters or digits; in particular the name is never
    empty and never contains a dot. *)
Theorem service_name_shape (randbelow : nat → nat → nat) :
  (∀ k n, 0 < n → randbelow k n < n) →
  ∃ s, service_name randbelow = Some s ∧
       String.length s = 15 ∧
       Forall (λ c, is_alnum c = true) (String.list_ascii_of_string s) ∧
       "."%char ∉ String.list_ascii_of_string s.
Proof.
  intros Hbelow. unfold service_name.
  destruct (mapM_is_Some_2
              (λ k, choice (randbelow k (String.length chars)) chars) (seq 0 15))
    as [l Hl].
  { apply Forall_forall. intros k _. apply get_in_range, Hbelow.
    vm_compute. lia. }
  rewrite Hl. simpl. eexists; split; [reflexivity|].
  pose proof (length_mapM _ _ _ Hl) as Hlen.
  apply mapM_Some_1 in Hl.
  assert (Halnum : Forall (λ c, is_alnum c = true) l).
  { apply Forall_forall. intros c Hc.
    apply list_elem_of_lookup in Hc as [i Hi].
    destruct (Forall2_lookup_r _ _ _ i c Hl Hi) as (k & _ & Hget).
    apply get_elem_of in Hget.
    by eapply (proj1 (Forall_forall _ _) chars_alnum). }
  rewrite length_string_of_list_ascii, String.list_ascii_of_string_of_list_ascii.
  split; [by rewrite <- Hlen|]. split; [done|].
  intros Hdot. by apply (proj1 (Forall_forall _ _) Halnum) in Hdot.
Qed.

End ServiceNameFacts.

(** The draws [0], [1], ..., [14] spell the first fifteen letters. *)
Lemma service_name_shape_witness :
  ∃ s, TestLoggerUtils.service_name (λ k n, k mod n) = Some s ∧
       String.length s = 15 ∧
       Forall (λ c, TestLoggerUtils.is_alnum c = true)
              (String.list_ascii_of_string s) ∧
       "."%char ∉ String.list_ascii_of_string s.
Proof.
  apply (service_name_shape (λ k n, k mod n)).
  intros k n Hn. apply Nat.mod_upper_bound. lia.
Defined.

Example service_name_first_letters :
  TestLoggerUtils.service_name (λ k n, k mod n) = Some "abcdefghijklmno".
Proof. vm_compute. reflexivity. Qed.
